(** * CSwiftLogAndroidSupport: the stdio shim of swift-log

    The translation unit [shim.c] defines six functions that the Swift side
    calls instead of touching [FILE *] directly.  Every one of them hands its
    arguments to one primitive of the platform's C runtime.  The runtime is
    not part of the repository, so the functions are embedded as interaction
    trees over an event signature [stdioE] that names the primitives, and the
    runtime is a parameter: any [platform] gives the events a meaning. *)

From Stdlib Require Import ZArith NArith List String Lia Morphisms.
From ITree Require Import ITree ITreeFacts Events.State Events.StateFacts.
From ITree Require Import Props.HasPost Props.Leaf Props.Finite.
From Paco Require Import paco.
Import ITreeNotations.
Import ListNotations.
Local Open Scope itree_scope.

(* ===================================================================== *)
(** ** C types of the interface *)

(** Pointers are addresses.  The interface speaks [void *]; the runtime
    speaks [FILE *].  Both are kept apart, as in the C source, and the
    implicit conversions the compiler inserts are written out. *)
Record void_ptr : Type := VoidPtr { void_addr : Z }.
Record FILE_ptr : Type := FilePtr { FILE_addr : Z }.

(** [size_t] is unsigned, [int] is signed.  The shim does no arithmetic on
    either, so no wrap-around can occur inside it. *)
Definition size_t : Type := N.
Definition int : Type := Z.

(** [void * -> FILE *], inserted at every call [prim(file)]. *)
Definition FILE_of_void (p : void_ptr) : FILE_ptr := FilePtr (void_addr p).

(** [FILE * -> void *], inserted at [return stdout;] and [return stderr;]. *)
Definition void_of_FILE (f : FILE_ptr) : void_ptr := VoidPtr (FILE_addr f).

(* ===================================================================== *)
(** ** The primitives of <stdio.h> the shim can reach *)

(** One event per use of the runtime.  [Stdout] and [Stderr] are the reads
    of the two stream objects; the others are calls.  [Fopen] and [Fclose]
    stand for the part of <stdio.h> that creates and destroys streams: the
    header includes it, the shim never uses it. *)
Variant stdioE : Type -> Type :=
| Stdout : stdioE FILE_ptr
| Stderr : stdioE FILE_ptr
| Flockfile (file : FILE_ptr) : stdioE unit
| Funlockfile (file : FILE_ptr) : stdioE unit
| Fwrite (ptr : void_ptr) (size count : size_t) (file : FILE_ptr) : stdioE size_t
| Fflush (file : FILE_ptr) : stdioE int
| Fopen (path mode : void_ptr) : stdioE FILE_ptr
| Fclose (file : FILE_ptr) : stdioE int.

(* ===================================================================== *)
(** ** shim.c *)

(** [void *shim_stdout(void) { return stdout; }] *)
Definition shim_stdout : itree stdioE void_ptr :=
  f <- ITree.trigger Stdout ;;
  Ret (void_of_FILE f).

(** [void *shim_stderr(void) { return stderr; }] *)
Definition shim_stderr : itree stdioE void_ptr :=
  f <- ITree.trigger Stderr ;;
  Ret (void_of_FILE f).

(** [void shim_flockfile(void *file) { flockfile(file); }] *)
Definition shim_flockfile (file : void_ptr) : itree stdioE unit :=
  ITree.trigger (Flockfile (FILE_of_void file)) ;;
  Ret tt.

(** [void shim_funlockfile(void *file) { funlockfile(file); }] *)
Definition shim_funlockfile (file : void_ptr) : itree stdioE unit :=
  ITree.trigger (Funlockfile (FILE_of_void file)) ;;
  Ret tt.

(** [size_t shim_fwrite(const void *ptr, size_t size, size_t count, void *file)
      { return fwrite(ptr, size, count, file); }] *)
Definition shim_fwrite (ptr : void_ptr) (size count : size_t) (file : void_ptr)
  : itree stdioE size_t :=
  n <- ITree.trigger (Fwrite ptr size count (FILE_of_void file)) ;;
  Ret n.

(** [int shim_fflush(void *file) { return fflush(file); }] *)
Definition shim_fflush (file : void_ptr) : itree stdioE int :=
  status <- ITree.trigger (Fflush (FILE_of_void file)) ;;
  Ret status.

(* ===================================================================== *)
(** ** The runtime *)

(** A platform over worlds [W].  The two stream objects are read from the
    world (reading a C object changes nothing); the calls are arbitrary
    state transformers that may themselves interact through [F] (block,
    yield to a scheduler, fail) or never return. *)
Record platform (W : Type) (F : Type -> Type) : Type := Platform {
  stdout : W -> FILE_ptr;
  stderr : W -> FILE_ptr;
  flockfile : FILE_ptr -> Monads.stateT W (itree F) unit;
  funlockfile : FILE_ptr -> Monads.stateT W (itree F) unit;
  fwrite : void_ptr -> size_t -> size_t -> FILE_ptr -> Monads.stateT W (itree F) size_t;
  fflush : FILE_ptr -> Monads.stateT W (itree F) int;
  fopen : void_ptr -> void_ptr -> Monads.stateT W (itree F) FILE_ptr;
  fclose : FILE_ptr -> Monads.stateT W (itree F) int
}.

Arguments stdout {W F} _ _.
Arguments stderr {W F} _ _.
Arguments flockfile {W F} _ _ _.
Arguments funlockfile {W F} _ _ _.
Arguments fwrite {W F} _ _ _ _ _ _.
Arguments fflush {W F} _ _ _.
Arguments fopen {W F} _ _ _ _.
Arguments fclose {W F} _ _ _.

(** The meaning of one event on a platform. *)
Definition handle {W F} (P : platform W F) : stdioE ~> Monads.stateT W (itree F) :=
  fun _ e =>
    match e with
    | Stdout => fun w => Ret (w, stdout P w)
    | Stderr => fun w => Ret (w, stderr P w)
    | Flockfile file => flockfile P file
    | Funlockfile file => funlockfile P file
    | Fwrite ptr size count file => fwrite P ptr size count file
    | Fflush file => fflush P file
    | Fopen path mode => fopen P path mode
    | Fclose file => fclose P file
    end.

(** Running a program of the shim on a platform, from world [w]. *)
Definition run {W F R} (P : platform W F) (t : itree stdioE R) (w : W)
  : itree F (W * R) :=
  interp_state (handle P) t w.

(** The result of a primitive seen through a conversion of its value. *)
Definition through {W F X R} (conv : X -> R) (t : itree F (W * X)) : itree F (W * R) :=
  ITree.map (fun wx => (fst wx, conv (snd wx))) t.

(* ===================================================================== *)
(** ** Forwarding programs *)

(** [forwards e conv t]: the tree [t] is the event [e] and then a return of
    the event's answer seen through [conv].  No silent step, no second
    event, no choice. *)
Variant forwards {X R} (e : stdioE X) (conv : X -> R) (t : itree stdioE R) : Prop :=
| forwards_intro (k : X -> itree stdioE R)
    (Hcall : observe t = VisF e k)
    (Hret : forall x, observe (k x) = RetF (conv x)).


(* ===================================================================== *)
(** ** The six entry points, uniformly *)

(** A call of the shim: which function, with which arguments.  The index
    is the C return type. *)
Variant shim_call : Type -> Type :=
| Call_stdout : shim_call void_ptr
| Call_stderr : shim_call void_ptr
| Call_flockfile (file : void_ptr) : shim_call unit
| Call_funlockfile (file : void_ptr) : shim_call unit
| Call_fwrite (ptr : void_ptr) (size count : size_t) (file : void_ptr) : shim_call size_t
| Call_fflush (file : void_ptr) : shim_call int.

(** What the call executes: the function of [shim.c]. *)
Definition shim_program {R} (c : shim_call R) : itree stdioE R :=
  match c with
  | Call_stdout => shim_stdout
  | Call_stderr => shim_stderr
  | Call_flockfile file => shim_flockfile file
  | Call_funlockfile file => shim_funlockfile file
  | Call_fwrite ptr size count file => shim_fwrite ptr size count file
  | Call_fflush file => shim_fflush file
  end.

(** The stream handle the caller passed, when the function takes one. *)
Definition handle_argument {R} (c : shim_call R) : option void_ptr :=
  match c with
  | Call_stdout | Call_stderr => None
  | Call_flockfile file | Call_funlockfile file
  | Call_fwrite _ _ _ file | Call_fflush file => Some file
  end.

(** A use of the runtime together with the conversion of its answer. *)
Record forwarding (R : Type) : Type := Forwarding {
  answer : Type;
  primitive : stdioE answer;
  convert : answer -> R
}.
Arguments Forwarding {R answer} _ _.
Arguments answer {R} _.
Arguments primitive {R} _.
Arguments convert {R} _ _.

(** The specification's reading of each entry point: the primitive of the
    same name, called directly with the same arguments in the same order.
    This definition follows the specification, not the source; it is what
    [shim_program] is compared with. *)
Definition underlying {R} (c : shim_call R) : forwarding R :=
  match c with
  | Call_stdout => Forwarding Stdout void_of_FILE
  | Call_stderr => Forwarding Stderr void_of_FILE
  | Call_flockfile file => Forwarding (Flockfile (FILE_of_void file)) (fun u => u)
  | Call_funlockfile file => Forwarding (Funlockfile (FILE_of_void file)) (fun u => u)
  | Call_fwrite ptr size count file =>
      Forwarding (Fwrite ptr size count (FILE_of_void file)) (fun n => n)
  | Call_fflush file => Forwarding (Fflush (FILE_of_void file)) (fun s => s)
  end.

(** The stream an event operates on, and whether it makes or unmakes one. *)
Definition stream_of {X} (e : stdioE X) : option FILE_ptr :=
  match e with
  | Stdout | Stderr | Fopen _ _ => None
  | Flockfile file | Funlockfile file | Fwrite _ _ _ file
  | Fflush file | Fclose file => Some file
  end.

Definition creates_or_destroys {X} (e : stdioE X) : bool :=
  match e with
  | Fopen _ _ | Fclose _ => true
  | _ => false
  end.

(** An observation of the world that a computation leaves as it found it,
    whatever it returns. *)
Definition preserves {W F R A} (obs : W -> A) (t : itree F (W * R)) (w : W) : Prop :=
  forall w' r, Leaf (w', r) t -> obs w' = obs w.


(* ===================================================================== *)
(** ** A small runtime to run the shim on *)

(** A runtime with two buffered streams of bounded room and a recursive
    lock count per stream.  It is one instance of [platform], used to run
    the functions on concrete inputs; no theorem about the shim is
    restricted to it. *)
Module Sample.

Record stream : Type := Stream {
  pending : list Z;       (* written, not yet flushed *)
  delivered : list Z;     (* flushed *)
  room : N;               (* bytes the stream still accepts *)
  owner : option nat;     (* the thread holding the lock *)
  depth : nat             (* how many times it holds it *)
}.

Record world : Type := World {
  self : nat;             (* the calling thread *)
  memory : list Z;        (* bytes, from address 0 *)
  stdout_obj : FILE_ptr;  (* the object [stdout] *)
  stderr_obj : FILE_ptr;  (* the object [stderr] *)
  out : stream;
  err : stream
}.

Variant selector : Type := Out | Err.

Definition select (file : FILE_ptr) (w : world) : option selector :=
  if (FILE_addr file =? FILE_addr (stdout_obj w))%Z then Some Out
  else if (FILE_addr file =? FILE_addr (stderr_obj w))%Z then Some Err
  else None.

Definition get (s : selector) (w : world) : stream :=
  match s with Out => out w | Err => err w end.

Definition set (s : selector) (st : stream) (w : world) : world :=
  match s with
  | Out => World (self w) (memory w) (stdout_obj w) (stderr_obj w) st (err w)
  | Err => World (self w) (memory w) (stdout_obj w) (stderr_obj w) (out w) st
  end.

Definition bytes_at (addr : Z) (len : N) (mem : list Z) : list Z :=
  firstn (N.to_nat len) (skipn (Z.to_nat addr) mem).

(** Whole elements that still fit. *)
Definition fitting (size count : N) (st : stream) : N :=
  if (size =? 0)%N then 0%N else N.min count (room st / size).

Definition do_fwrite (ptr : void_ptr) (size count : N) (file : FILE_ptr) (w : world)
  : world * N :=
  match select file w with
  | None => (w, 0%N)
  | Some s =>
      let st := get s w in
      let n := fitting size count st in
      let data := bytes_at (void_addr ptr) (n * size) (memory w) in
      (set s (Stream (pending st ++ data) (delivered st)
                     (room st - n * size) (owner st) (depth st)) w, n)
  end.

Definition do_fflush (file : FILE_ptr) (w : world) : world * Z :=
  match select file w with
  | None => (w, (-1)%Z)
  | Some s =>
      let st := get s w in
      (set s (Stream [] (delivered st ++ pending st) (room st)
                     (owner st) (depth st)) w, 0%Z)
  end.

Definition locked (st : stream) (by_thread : nat) (n : nat) : stream :=
  Stream (pending st) (delivered st) (room st)
         (match n with O => None | S _ => Some by_thread end) n.

(** Whether the calling thread may take the lock now. *)
Definition available (st : stream) (w : world) : bool :=
  match owner st with
  | None => true
  | Some t => Nat.eqb t (self w)
  end.

Definition pure {X} (f : world -> world * X) : Monads.stateT world (itree void1) X :=
  fun w => Ret (f w).

(** A recursive lock: free or held by the caller, it is taken once more;
    held by another thread, the call does not return. *)
Definition do_flockfile (file : FILE_ptr) : Monads.stateT world (itree void1) unit :=
  fun w =>
    match select file w with
    | None => Ret (w, tt)
    | Some s =>
        let st := get s w in
        if available st w
        then Ret (set s (locked st (self w) (S (depth st))) w, tt)
        else ITree.spin
    end.

Definition do_funlockfile (file : FILE_ptr) (w : world) : world * unit :=
  match select file w with
  | None => (w, tt)
  | Some s =>
      let st := get s w in
      if available st w
      then (set s (locked st (self w) (pred (depth st))) w, tt)
      else (w, tt)
  end.

Definition runtime : platform world void1 :=
  {| stdout := stdout_obj;
     stderr := stderr_obj;
     flockfile := do_flockfile;
     funlockfile := fun file => pure (do_funlockfile file);
     fwrite := fun ptr size count file => pure (do_fwrite ptr size count file);
     fflush := fun file => pure (do_fflush file);
     fopen := fun _ _ => pure (fun w => (w, FilePtr 0));
     fclose := fun _ => pure (fun w => (w, (-1)%Z)) |}.

Definition fresh (room_out : N) : stream := Stream [] [] room_out None 0.

(** Thread 1 runs; "hello\n" at address 0; stdout at 4096 with room for
    four bytes, stderr at 8192 with room for sixteen. *)
Definition boot : world :=
  World 1 [104; 101; 108; 108; 111; 10]%Z (FilePtr 4096) (FilePtr 8192)
        (fresh 4) (fresh 16).

(** The same runtime over another memory image. *)
Definition boot' : world :=
  World 1 [33; 10]%Z (FilePtr 4096) (FilePtr 8192) (fresh 0) (fresh 1).

(** Thread 1 runs while thread 7 holds the lock of stderr. *)
Definition contended : world :=
  World 1 [104; 101; 108; 108; 111; 10]%Z (FilePtr 4096) (FilePtr 8192)
        (fresh 4) (Stream [] [] 16 (Some 7) 1).

End Sample.

(** The result of a computation that interacts no further, when it is
    reached within [fuel] silent steps. *)
Fixpoint result_within {R} (fuel : nat) (t : itree void1 R) : option R :=
  match observe t with
  | RetF r => Some r
  | TauF t' =>
      match fuel with
      | O => None
      | S fuel' => result_within fuel' t'
      end
  | VisF e _ => match e with end
  end.


(* ===================================================================== *)
(** ** The interface: CSwiftLogAndroidSupport.h against shim.c *)

Variant ctype : Type := Tvoid | Tint | Tsize_t | Tvoid_ptr | Tconst_void_ptr.

Record prototype : Type := Prototype {
  fn_name : string;
  fn_ret : ctype;
  fn_params : list ctype
}.

(** The six declarations of the header, in its order. *)
Definition CSwiftLogAndroidSupport_h : list prototype :=
  [ Prototype "shim_stdout" Tvoid_ptr [];
    Prototype "shim_stderr" Tvoid_ptr [];
    Prototype "shim_flockfile" Tvoid [Tvoid_ptr];
    Prototype "shim_funlockfile" Tvoid [Tvoid_ptr];
    Prototype "shim_fwrite" Tsize_t [Tconst_void_ptr; Tsize_t; Tsize_t; Tvoid_ptr];
    Prototype "shim_fflush" Tint [Tvoid_ptr] ].

Definition denote (t : ctype) : Type :=
  match t with
  | Tvoid => unit
  | Tint => int
  | Tsize_t => size_t
  | Tvoid_ptr | Tconst_void_ptr => void_ptr
  end.

(** The type of the embedding of a function with the given prototype. *)
Fixpoint fn_type (params : list ctype) (ret : ctype) : Type :=
  match params with
  | [] => itree stdioE (denote ret)
  | p :: ps => denote p -> fn_type ps ret
  end.

Record definition : Type := Definition_ {
  proto : prototype;
  body : fn_type (fn_params proto) (fn_ret proto)
}.

(** The six definitions of the translation unit, in its order; each body
    is the embedding given above and is checked against its prototype by
    the type of [body]. *)
Definition shim_c : list definition :=
  [ Definition_ (Prototype "shim_stdout" Tvoid_ptr []) shim_stdout;
    Definition_ (Prototype "shim_stderr" Tvoid_ptr []) shim_stderr;
    Definition_ (Prototype "shim_flockfile" Tvoid [Tvoid_ptr]) shim_flockfile;
    Definition_ (Prototype "shim_funlockfile" Tvoid [Tvoid_ptr]) shim_funlockfile;
    Definition_ (Prototype "shim_fwrite" Tsize_t
                           [Tconst_void_ptr; Tsize_t; Tsize_t; Tvoid_ptr]) shim_fwrite;
    Definition_ (Prototype "shim_fflush" Tint [Tvoid_ptr]) shim_fflush ].

Variant primitive_name : Type :=
| prim_stdout | prim_stderr | prim_flockfile | prim_funlockfile
| prim_fwrite | prim_fflush | prim_fopen | prim_fclose.

Definition name_of {X} (e : stdioE X) : primitive_name :=
  match e with
  | Stdout => prim_stdout
  | Stderr => prim_stderr
  | Flockfile _ => prim_flockfile
  | Funlockfile _ => prim_funlockfile
  | Fwrite _ _ _ _ => prim_fwrite
  | Fflush _ => prim_fflush
  | Fopen _ _ => prim_fopen
  | Fclose _ => prim_fclose
  end.

Definition some_argument (t : ctype) : denote t :=
  match t with
  | Tvoid => tt
  | Tint => 0%Z
  | Tsize_t => 0%N
  | Tvoid_ptr => VoidPtr 0
  | Tconst_void_ptr => VoidPtr 0
  end.

(** The primitive a function body starts with, read off its tree. *)
Fixpoint first_use (params : list ctype) (ret : ctype) : fn_type params ret -> option primitive_name :=
  match params with
  | [] => fun t =>
      match observe t with
      | VisF e _ => Some (name_of e)
      | _ => None
      end
  | p :: ps => fun f => first_use ps ret (f (some_argument p))
  end.

Definition forwarded (d : definition) : option primitive_name :=
  first_use (fn_params (proto d)) (fn_ret (proto d)) (body d).

(** The operations the specification enumerates for the boundary, and the
    four kinds it counts them as (stream handles, locking, writing,
    flushing).  Both follow the specification's wording. *)
Definition enumerated : list primitive_name :=
  [prim_stdout; prim_stderr; prim_flockfile; prim_funlockfile; prim_fwrite; prim_fflush].

Variant operation : Type :=
| Op_stream_handle | Op_exclusive_access | Op_write | Op_flush | Op_lifecycle.

Definition operation_of (p : primitive_name) : operation :=
  match p with
  | prim_stdout | prim_stderr => Op_stream_handle
  | prim_flockfile | prim_funlockfile => Op_exclusive_access
  | prim_fwrite => Op_write
  | prim_fflush => Op_flush
  | prim_fopen | prim_fclose => Op_lifecycle
  end.

Definition operation_eq_dec (a b : operation) : {a = b} + {a <> b}.
Proof. decide equality. Defined.

Definition ctype_eq_dec (a b : ctype) : {a = b} + {a <> b}.
Proof. decide equality. Defined.

Definition prototype_eq_dec (p q : prototype) : {p = q} + {p <> q}.
Proof.
  decide equality.
  - apply (list_eq_dec ctype_eq_dec).
  - apply ctype_eq_dec.
  - apply string_dec.
Defined.

(** What a caller that includes the header gets for a prototype: nothing
    unless the header declares it; otherwise the body of the definition of
    that name in the translation unit, provided its prototype is the
    declared one. *)
Definition entry (p : prototype) : option (fn_type (fn_params p) (fn_ret p)) :=
  if in_dec prototype_eq_dec p CSwiftLogAndroidSupport_h then
    match find (fun d => String.eqb (fn_name (proto d)) (fn_name p)) shim_c with
    | None => None
    | Some d =>
        match prototype_eq_dec (proto d) p with
        | left Heq =>
            Some (eq_rect (proto d)
                          (fun q => fn_type (fn_params q) (fn_ret q)) (body d) p Heq)
        | right _ => None
        end
    end
  else None.

(** The declaration each of the six calls goes through. *)
Definition call_prototype {R} (c : shim_call R) : prototype :=
  match c with
  | Call_stdout => Prototype "shim_stdout" Tvoid_ptr []
  | Call_stderr => Prototype "shim_stderr" Tvoid_ptr []
  | Call_flockfile _ => Prototype "shim_flockfile" Tvoid [Tvoid_ptr]
  | Call_funlockfile _ => Prototype "shim_funlockfile" Tvoid [Tvoid_ptr]
  | Call_fwrite _ _ _ _ =>
      Prototype "shim_fwrite" Tsize_t [Tconst_void_ptr; Tsize_t; Tsize_t; Tvoid_ptr]
  | Call_fflush _ => Prototype "shim_fflush" Tint [Tvoid_ptr]
  end.

(** The program a call executes when it is resolved through the header:
    the body found by [entry], applied to the call's arguments in order. *)
Definition call_through_header {R} (c : shim_call R) : option (itree stdioE R) :=
  match c in shim_call T return option (itree stdioE T) with
  | Call_stdout => entry (call_prototype Call_stdout)
  | Call_stderr => entry (call_prototype Call_stderr)
  | Call_flockfile file =>
      option_map (fun f => f file) (entry (call_prototype (Call_flockfile file)))
  | Call_funlockfile file =>
      option_map (fun f => f file) (entry (call_prototype (Call_funlockfile file)))
  | Call_fwrite ptr size count file =>
      option_map (fun f => f ptr size count file)
                 (entry (call_prototype (Call_fwrite ptr size count file)))
  | Call_fflush file =>
      option_map (fun f => f file) (entry (call_prototype (Call_fflush file)))
  end.


(* ===================================================================== *)
(** ** Callers *)

(** A caller sees the six entry points and nothing else: it is a tree over
    [shim_call].  Linking it with [shim.c] replaces every call by the body
    of the function called. *)
Definition shim : shim_call ~> itree stdioE :=
  fun _ c => shim_program c.

Definition link {R} (client : itree shim_call R) : itree stdioE R :=
  interp shim client.

(** The same caller written against <stdio.h>: every call replaced by the
    primitive of [underlying], with the pointer conversions. *)
Definition direct : shim_call ~> itree stdioE :=
  fun _ c =>
    x <- ITree.trigger (primitive (underlying c)) ;;
    Ret (convert (underlying c) x).

(** [I] is an invariant of the four calls the shim makes.  Nothing is
    asked of [fopen] and [fclose]. *)
Definition invariant_of {W F} (P : platform W F) (I : W -> Prop) : Prop :=
  (forall file w w' u, I w -> Leaf (w', u) (flockfile P file w) -> I w')
  /\ (forall file w w' u, I w -> Leaf (w', u) (funlockfile P file w) -> I w')
  /\ (forall ptr size count file w w' n,
         I w -> Leaf (w', n) (fwrite P ptr size count file w) -> I w')
  /\ (forall file w w' status, I w -> Leaf (w', status) (fflush P file w) -> I w').

(** A caller that logs one line on stderr under the stream's lock and
    reports what the two results were. *)
Definition log_line (ptr : void_ptr) (size count : size_t)
  : itree shim_call (size_t * int) :=
  h <- ITree.trigger Call_stderr ;;
  ITree.trigger (Call_flockfile h) ;;
  n <- ITree.trigger (Call_fwrite ptr size count h) ;;
  status <- ITree.trigger (Call_fflush h) ;;
  ITree.trigger (Call_funlockfile h) ;;
  Ret (n, status).

(* ===================================================================== *)
(** ** A runtime that records what it is asked *)

(** Every call appends its name and arguments to the world, which is the
    record of calls so far, and answers with a fixed value.  Reads of the
    stream objects are not calls and leave no entry. *)
Module Tracer.

Variant entry : Type :=
| Called_flockfile (file : FILE_ptr)
| Called_funlockfile (file : FILE_ptr)
| Called_fwrite (ptr : void_ptr) (size count : size_t) (file : FILE_ptr)
| Called_fflush (file : FILE_ptr)
| Called_fopen (path mode : void_ptr)
| Called_fclose (file : FILE_ptr).

Definition record {X} (e : entry) (x : X) : Monads.stateT (list entry) (itree void1) X :=
  fun log => Ret (log ++ [e], x).

Definition runtime : platform (list entry) void1 :=
  {| stdout := fun _ => FilePtr 4096;
     stderr := fun _ => FilePtr 8192;
     flockfile := fun file => record (Called_flockfile file) tt;
     funlockfile := fun file => record (Called_funlockfile file) tt;
     fwrite := fun ptr size count file =>
                 record (Called_fwrite ptr size count file) count;
     fflush := fun file => record (Called_fflush file) 0%Z;
     fopen := fun path mode => record (Called_fopen path mode) (FilePtr 0);
     fclose := fun file => record (Called_fclose file) 0%Z |}.

Definition lifecycle (e : entry) : bool :=
  match e with
  | Called_fopen _ _ | Called_fclose _ => true
  | _ => false
  end.

End Tracer.


(* ===================================================================== *)
(** ** General facts about forwarding programs *)

Lemma forwards_eq_itree {X R} (e : stdioE X) (conv : X -> R) t :
  forwards e conv t -> t ≅ Vis e (fun x => Ret (conv x)).
Proof.
  intros [k Hcall Hret].
  rewrite (itree_eta t), Hcall.
  apply eqit_Vis. intros x.
  rewrite (itree_eta (k x)), Hret. reflexivity.
Qed.

Lemma forwards_id_trigger {X} (e : stdioE X) t :
  forwards e (fun x => x) t -> t ≅ ITree.trigger e.
Proof.
  intros H. rewrite (forwards_eq_itree _ _ _ H). reflexivity.
Qed.

Lemma forwards_run {W F X R} (P : platform W F) (e : stdioE X) (conv : X -> R) t w :
  forwards e conv t ->
  run P t w ≈ through conv (handle P _ e w).
Proof.
  intros H. unfold run, through.
  rewrite (forwards_eq_itree _ _ _ H).
  rewrite interp_state_vis.
  unfold ITree.map.
  eapply eutt_clo_bind; [reflexivity |].
  intros [w1 x1] [w2 x2] Heq. inversion Heq; subst. cbn.
  rewrite tau_eutt, interp_state_ret. reflexivity.
Qed.

#[global] Instance through_eutt {W F X R} (conv : X -> R) :
  Proper (eutt eq ==> eutt eq) (@through W F X R conv).
Proof.
  intros t u Htu. unfold through, ITree.map.
  eapply eutt_clo_bind; [exact Htu |].
  intros wx wx' ->. reflexivity.
Qed.

Lemma through_id {W F X} (t : itree F (W * X)) :
  through (fun x => x) t ≈ t.
Proof.
  unfold through, ITree.map.
  rewrite <- (bind_ret_r t) at 2.
  eapply eutt_clo_bind; [reflexivity |].
  intros [w1 x1] [w2 x2] Heq. inversion Heq; subst. reflexivity.
Qed.

(** The body of a one-line function unfolds to its event under [observe]. *)
Ltac forwarding :=
  econstructor; [cbn; reflexivity | intros ?; cbn; reflexivity].

(** Each function of [shim.c] is a forwarding program. *)
Lemma shim_stdout_forwards : forwards Stdout void_of_FILE shim_stdout.
Proof. forwarding. Qed.

Lemma shim_stderr_forwards : forwards Stderr void_of_FILE shim_stderr.
Proof. forwarding. Qed.

Lemma shim_flockfile_forwards file :
  forwards (Flockfile (FILE_of_void file)) (fun _ => tt) (shim_flockfile file).
Proof. forwarding. Qed.

Lemma shim_funlockfile_forwards file :
  forwards (Funlockfile (FILE_of_void file)) (fun _ => tt) (shim_funlockfile file).
Proof. forwarding. Qed.

Lemma shim_fwrite_forwards ptr size count file :
  forwards (Fwrite ptr size count (FILE_of_void file)) (fun n => n)
           (shim_fwrite ptr size count file).
Proof. forwarding. Qed.

Lemma shim_fflush_forwards file :
  forwards (Fflush (FILE_of_void file)) (fun s => s) (shim_fflush file).
Proof. forwarding. Qed.

Lemma forwards_conv_ext {X R} (e : stdioE X) (conv conv' : X -> R) t :
  (forall x, conv x = conv' x) -> forwards e conv t -> forwards e conv' t.
Proof.
  intros Hext [k Hcall Hret]. exists k; [exact Hcall |].
  intros x. rewrite Hret, Hext. reflexivity.
Qed.

Lemma shim_program_forwards {R} (c : shim_call R) :
  forwards (primitive (underlying c)) (convert (underlying c)) (shim_program c).
Proof.
  destruct c; cbn.
  - apply shim_stdout_forwards.
  - apply shim_stderr_forwards.
  - eapply forwards_conv_ext; [| apply shim_flockfile_forwards].
    intros []; reflexivity.
  - eapply forwards_conv_ext; [| apply shim_funlockfile_forwards].
    intros []; reflexivity.
  - apply shim_fwrite_forwards.
  - apply shim_fflush_forwards.
Qed.

Lemma Leaf_through {W F X R} (conv : X -> R) (t : itree F (W * X)) w' r :
  Leaf (w', r) (through conv t) <-> exists x, Leaf (w', x) t /\ r = conv x.
Proof.
  unfold through, ITree.map. split.
  - intros H. apply Leaf_bind_inv in H. destruct H as [[w1 x1] [Ht Hr]].
    apply Leaf_Ret_inv in Hr. cbn in Hr. inversion Hr; subst.
    exists x1. split; [exact Ht | reflexivity].
  - intros [x [Ht ->]].
    eapply Leaf_bind; [exact Ht |]. cbn. apply Leaf_Ret.
Qed.

Lemma forwards_Leaf {W F X R} (P : platform W F) (e : stdioE X) (conv : X -> R) t w w' r :
  forwards e conv t ->
  Leaf (w', r) (run P t w) <-> exists x, Leaf (w', x) (handle P _ e w) /\ r = conv x.
Proof.
  intros H. rewrite (forwards_run P e conv t w H). apply Leaf_through.
Qed.

Lemma forwards_id_run {W F X} (P : platform W F) (e : stdioE X) t w :
  forwards e (fun x => x) t -> run P t w ≈ handle P _ e w.
Proof.
  intros H. rewrite (forwards_run P e _ t w H). apply through_id.
Qed.

Lemma forwards_preserves {W F X R A} (P : platform W F) (e : stdioE X) (conv : X -> R)
      (obs : W -> A) t w :
  forwards e conv t ->
  preserves obs (handle P _ e w) w -> preserves obs (run P t w) w.
Proof.
  intros H Hprim w' r Hleaf.
  apply (forwards_Leaf P e conv t w w' r H) in Hleaf.
  destruct Hleaf as [x [Hx _]]. exact (Hprim w' x Hx).
Qed.

Lemma result_within_Leaf {R} fuel (t : itree void1 R) r :
  result_within fuel t = Some r -> Leaf r t.
Proof.
  revert t. induction fuel as [| fuel IH]; intros t; cbn;
    destruct (observe t) as [r0 | t' | X e k] eqn:Hobs;
    try discriminate; try (exfalso; exact (match e with end)).
  - intros [= ->]. eapply LeafRet. exact Hobs.
  - intros [= ->]. eapply LeafRet. exact Hobs.
  - intros H. eapply LeafTau; [exact Hobs | apply IH; exact H].
Qed.

(* ===================================================================== *)
(** ** The shim on the sample runtime *)

(** Six one-byte elements into a stdout with room for four: a short write
    of four, and the four bytes are pending on stdout. *)
Example fwrite_short_on_sample :
  option_map (fun wn => (Sample.pending (Sample.out (fst wn)), snd wn))
             (result_within 1 (run Sample.runtime
                                   (shim_fwrite (VoidPtr 0) 1%N 6%N (VoidPtr 4096))
                                   Sample.boot))
  = Some ([104; 101; 108; 108]%Z, 4%N).
Proof. reflexivity. Qed.

(** Three two-byte elements into stderr: all three are taken. *)
Example fwrite_full_on_sample :
  option_map (fun wn => (Sample.pending (Sample.err (fst wn)), snd wn))
             (result_within 1 (run Sample.runtime
                                   (shim_fwrite (VoidPtr 0) 2%N 3%N (VoidPtr 8192))
                                   Sample.boot))
  = Some ([104; 101; 108; 108; 111; 10]%Z, 3%N).
Proof. reflexivity. Qed.

(** Flushing a handle the runtime does not know: status -1, world as before. *)
Example fflush_unknown_on_sample :
  result_within 1 (run Sample.runtime (shim_fflush (VoidPtr 5)) Sample.boot)
  = Some (Sample.boot, (-1)%Z).
Proof. reflexivity. Qed.

(** Lock twice, unlock once: thread 1 holds the lock of stderr once. *)
Example lock_depth_on_sample :
  option_map (fun wu => (Sample.owner (Sample.err (fst wu)),
                         Sample.depth (Sample.err (fst wu))))
             (result_within 3 (run Sample.runtime
                                   (shim_flockfile (VoidPtr 8192) ;;
                                    shim_flockfile (VoidPtr 8192) ;;
                                    shim_funlockfile (VoidPtr 8192))
                                   Sample.boot))
  = Some (Some 1, 1).
Proof. reflexivity. Qed.

(** While another thread holds the lock, [shim_flockfile] does not return,
    because [flockfile] does not; the other wrappers still do. *)
Example flockfile_blocks_on_sample :
  forall r, ~ Leaf r (run Sample.runtime (shim_flockfile (VoidPtr 8192)) Sample.contended).
Proof.
  intros r H.
  rewrite (forwards_id_run Sample.runtime _ _ Sample.contended
             (shim_program_forwards (Call_flockfile (VoidPtr 8192)))) in H.
  cbn in H. exact (spin_empty_Leaf _ _ _ H).
Qed.

Example fwrite_returns_on_contended :
  option_map snd
             (result_within 1 (run Sample.runtime
                                   (shim_fwrite (VoidPtr 0) 1%N 6%N (VoidPtr 8192))
                                   Sample.contended))
  = Some 6%N.
Proof. reflexivity. Qed.

Example stdout_on_sample :
  result_within 1 (run Sample.runtime shim_stdout Sample.boot)
  = Some (Sample.boot, VoidPtr 4096).
Proof. reflexivity. Qed.

(** The run of a wrapper is not the primitive's tree itself: the
    interpreter takes one silent step after the event. *)
Example run_takes_a_silent_step :
  result_within 0 (run Sample.runtime shim_stderr Sample.boot) = None.
Proof. reflexivity. Qed.

(** Facts about the sample runtime, used to run the theorems below. *)
Lemma sample_returns {X} (f : Sample.world -> Sample.world * X) w w' x :
  f w = (w', x) -> Leaf (w', x) (Sample.pure f w).
Proof. intros H. unfold Sample.pure. rewrite H. apply Leaf_Ret. Qed.

Lemma sample_returns_inv {X} (f : Sample.world -> Sample.world * X) w w' x :
  Leaf (w', x) (Sample.pure f w) -> f w = (w', x).
Proof. intros H. apply Leaf_Ret_inv in H. symmetry. exact H. Qed.



(* ===================================================================== *)
(** ** Pass-through of the write and flush calls *)

(** C1: for every ptr, size, count and file, [shim_fwrite ptr size count file]
    is the single call [fwrite(ptr, size, count, file)] with the arguments in
    that order and the handle at the same address; on every platform and from
    every world it returns the value that call returns and leaves the world
    (hence the stream) as that call leaves it. *)
Theorem shim_fwrite_pass_through :
  forall (ptr : void_ptr) (size count : size_t) (file : void_ptr),
    shim_fwrite ptr size count file
      ≅ ITree.trigger (Fwrite ptr size count (FILE_of_void file))
    /\ FILE_addr (FILE_of_void file) = void_addr file
    /\ forall W F (P : platform W F) (w : W),
         run P (shim_fwrite ptr size count file) w
           ≈ fwrite P ptr size count (FILE_of_void file) w.
Proof.
  intros ptr size count file.
  pose proof (shim_fwrite_forwards ptr size count file) as Hf.
  split; [| split].
  - apply forwards_id_trigger. exact Hf.
  - reflexivity.
  - intros W F P w. exact (forwards_id_run P _ _ w Hf).
Qed.

(** C2: for every file, [shim_fflush file] is the single call [fflush(file)]
    on the handle at the same address; on every platform and from every world
    it returns the status that call returns and leaves the world as that call
    leaves it. *)
Theorem shim_fflush_pass_through :
  forall (file : void_ptr),
    shim_fflush file ≅ ITree.trigger (Fflush (FILE_of_void file))
    /\ FILE_addr (FILE_of_void file) = void_addr file
    /\ forall W F (P : platform W F) (w : W),
         run P (shim_fflush file) w ≈ fflush P (FILE_of_void file) w.
Proof.
  intros file.
  pose proof (shim_fflush_forwards file) as Hf.
  split; [| split].
  - apply forwards_id_trigger. exact Hf.
  - reflexivity.
  - intros W F P w. exact (forwards_id_run P _ _ w Hf).
Qed.

(* ===================================================================== *)
(** ** The standard streams *)

(** C3: on every platform and from every world, [shim_stdout] returns the
    runtime's [stdout] and [shim_stderr] the runtime's [stderr], as a
    [void *] at the same address, exactly as a direct read of the object
    does, and the world is left as it was. *)
Theorem shim_std_streams_pass_through :
  forall W F (P : platform W F) (w : W),
    (run P shim_stdout w ≈ Ret (w, void_of_FILE (stdout P w))
     /\ run P shim_stdout w ≈ through void_of_FILE (run P (ITree.trigger Stdout) w)
     /\ void_addr (void_of_FILE (stdout P w)) = FILE_addr (stdout P w)
     /\ FILE_of_void (void_of_FILE (stdout P w)) = stdout P w)
    /\
    (run P shim_stderr w ≈ Ret (w, void_of_FILE (stderr P w))
     /\ run P shim_stderr w ≈ through void_of_FILE (run P (ITree.trigger Stderr) w)
     /\ void_addr (void_of_FILE (stderr P w)) = FILE_addr (stderr P w)
     /\ FILE_of_void (void_of_FILE (stderr P w)) = stderr P w).
Proof.
  intros W F P w.
  assert (Hret : forall X R (conv : X -> R) (x : X),
             through (W := W) (F := F) conv (Ret (w, x)) ≈ Ret (w, conv x)).
  { intros X R conv x. unfold through, ITree.map. rewrite bind_ret_l. reflexivity. }
  assert (Hread : forall (e : stdioE FILE_ptr), run P (ITree.trigger e) w ≈ handle P _ e w).
  { intros e. unfold run. apply interp_state_trigger. }
  split; (split; [| split; [| split]]).
  - rewrite (forwards_run P _ _ _ w shim_stdout_forwards). cbn. apply Hret.
  - rewrite (forwards_run P _ _ _ w shim_stdout_forwards), Hread. reflexivity.
  - reflexivity.
  - destruct (stdout P w); reflexivity.
  - rewrite (forwards_run P _ _ _ w shim_stderr_forwards). cbn. apply Hret.
  - rewrite (forwards_run P _ _ _ w shim_stderr_forwards), Hread. reflexivity.
  - reflexivity.
  - destruct (stderr P w); reflexivity.
Qed.

(* ===================================================================== *)
(** ** Error results *)

(** C4: a short count reported by the runtime's [fwrite] and a non-zero
    status returned by the runtime's [fflush] come back from [shim_fwrite]
    and [shim_fflush] unchanged, with the world the primitive left; and the
    results the two wrappers can return are exactly the results of their
    primitives, so none is remapped, absorbed or added. *)
Theorem shim_errors_pass_through :
  forall W F (P : platform W F) (ptr : void_ptr) (size count : size_t)
         (file : void_ptr) (w : W),
    (forall w' n,
        Leaf (w', n) (fwrite P ptr size count (FILE_of_void file) w) ->
        (n < count)%N ->
        Leaf (w', n) (run P (shim_fwrite ptr size count file) w))
    /\ (forall w' status,
           Leaf (w', status) (fflush P (FILE_of_void file) w) ->
           status <> 0%Z ->
           Leaf (w', status) (run P (shim_fflush file) w))
    /\ (forall w' n,
           Leaf (w', n) (run P (shim_fwrite ptr size count file) w)
           <-> Leaf (w', n) (fwrite P ptr size count (FILE_of_void file) w))
    /\ (forall w' status,
           Leaf (w', status) (run P (shim_fflush file) w)
           <-> Leaf (w', status) (fflush P (FILE_of_void file) w)).
Proof.
  intros W F P ptr size count file w.
  pose proof (forwards_id_run P _ _ w (shim_fwrite_forwards ptr size count file)) as Hw.
  pose proof (forwards_id_run P _ _ w (shim_fflush_forwards file)) as Hf.
  cbn in Hw, Hf.
  repeat split; intros; try (rewrite Hw); try (rewrite Hf); try assumption.
  - rewrite <- Hw. assumption.
  - rewrite <- Hf. assumption.
Qed.

Lemma shim_errors_pass_through_witness :
  Leaf (fst (Sample.do_fwrite (VoidPtr 0) 1%N 6%N (FilePtr 4096) Sample.boot), 4%N)
       (run Sample.runtime (shim_fwrite (VoidPtr 0) 1%N 6%N (VoidPtr 4096)) Sample.boot)
  /\ Leaf (Sample.boot, (-1)%Z)
          (run Sample.runtime (shim_fflush (VoidPtr 5)) Sample.boot).
Proof.
  split.
  - destruct (shim_errors_pass_through _ _ Sample.runtime (VoidPtr 0) 1%N 6%N
                                       (VoidPtr 4096) Sample.boot) as [Hshort _].
    apply Hshort.
    + apply sample_returns. reflexivity.
    + reflexivity.
  - destruct (shim_errors_pass_through _ _ Sample.runtime (VoidPtr 0) 1%N 6%N
                                       (VoidPtr 5) Sample.boot) as [_ [Hstatus _]].
    apply Hstatus.
    + apply sample_returns. reflexivity.
    + discriminate.
Defined.

(* ===================================================================== *)
(** ** Stream locking *)

(** C5: [shim_flockfile file] and [shim_funlockfile file] are the single
    events [flockfile] and [funlockfile] on the handle at the same address.
    Whatever the platform makes of these events (blocking, scheduling,
    ownership, expressed in its own events [F] and world), a run of the
    wrapper is a run of the primitive, and a critical section written with
    the wrappers is the critical section written with the primitives. *)
Theorem shim_lock_forwarding :
  forall (file : void_ptr),
    shim_flockfile file ≅ ITree.trigger (Flockfile (FILE_of_void file))
    /\ shim_funlockfile file ≅ ITree.trigger (Funlockfile (FILE_of_void file))
    /\ FILE_addr (FILE_of_void file) = void_addr file
    /\ (forall W F (P : platform W F) (w : W),
           run P (shim_flockfile file) w ≈ flockfile P (FILE_of_void file) w
           /\ run P (shim_funlockfile file) w ≈ funlockfile P (FILE_of_void file) w)
    /\ (forall R (body : itree stdioE R),
           (shim_flockfile file ;; r <- body ;; shim_funlockfile file ;; Ret r)
           ≅ (ITree.trigger (Flockfile (FILE_of_void file)) ;; r <- body ;;
              ITree.trigger (Funlockfile (FILE_of_void file)) ;; Ret r)).
Proof.
  intros file.
  pose proof (shim_program_forwards (Call_flockfile file)) as Hl.
  pose proof (shim_program_forwards (Call_funlockfile file)) as Hu.
  cbn in Hl, Hu.
  pose proof (forwards_id_trigger _ _ Hl) as El.
  pose proof (forwards_id_trigger _ _ Hu) as Eu.
  split; [exact El | split; [exact Eu | split; [reflexivity | split]]].
  - intros W F P w. split.
    + exact (forwards_id_run P _ _ w Hl).
    + exact (forwards_id_run P _ _ w Hu).
  - intros R body.
    apply eqit_bind; [exact El | intros _].
    apply eqit_bind; [reflexivity | intros r].
    apply eqit_bind; [exact Eu | intros _; reflexivity].
Qed.

(* ===================================================================== *)
(** ** No state and no behaviour of the shim's own *)

(** C6: every call of any of the six functions is one use of the primitive
    it forwards to and a return of its answer.  That primitive neither
    creates nor destroys a stream; the handle argument reaches it at the
    same address, and the handle a stream getter returns has the address
    the runtime gave.  On every platform the call transforms the world as
    the primitive does, so whatever observation of the world the primitive
    leaves untouched, the call leaves untouched. *)
Theorem shim_adds_no_state_or_behaviour :
  forall R (c : shim_call R),
    forwards (primitive (underlying c)) (convert (underlying c)) (shim_program c)
    /\ creates_or_destroys (primitive (underlying c)) = false
    /\ (forall file, handle_argument c = Some file ->
           stream_of (primitive (underlying c)) = Some (FILE_of_void file)
           /\ FILE_addr (FILE_of_void file) = void_addr file)
    /\ (forall f : FILE_ptr, void_addr (void_of_FILE f) = FILE_addr f)
    /\ (forall W F (P : platform W F) (w : W),
           run P (shim_program c) w
             ≈ through (convert (underlying c))
                       (handle P _ (primitive (underlying c)) w))
    /\ (forall W F A (P : platform W F) (obs : W -> A) (w : W),
           preserves obs (handle P _ (primitive (underlying c)) w) w ->
           preserves obs (run P (shim_program c) w) w).
Proof.
  intros R c.
  pose proof (shim_program_forwards c) as Hf.
  split; [exact Hf | split; [| split; [| split; [| split]]]].
  - destruct c; reflexivity.
  - intros file Harg.
    destruct c; cbn in Harg; try discriminate;
      injection Harg as ->; split; reflexivity.
  - intros f. reflexivity.
  - intros W F P w. exact (forwards_run P _ _ _ w Hf).
  - intros W F A P obs w. exact (forwards_preserves P _ _ obs _ w Hf).
Qed.

Lemma shim_adds_no_state_or_behaviour_witness :
  preserves Sample.err
            (run Sample.runtime
                 (shim_program (Call_fwrite (VoidPtr 0) 1%N 6%N (VoidPtr 4096)))
                 Sample.boot)
            Sample.boot.
Proof.
  destruct (shim_adds_no_state_or_behaviour
              _ (Call_fwrite (VoidPtr 0) 1%N 6%N (VoidPtr 4096)))
    as [_ [_ [_ [_ [_ Hframe]]]]].
  apply (Hframe _ _ _ Sample.runtime Sample.err Sample.boot).
  intros w' n Hleaf. apply sample_returns_inv in Hleaf.
  injection Hleaf as <- _. reflexivity.
Defined.

(* ===================================================================== *)
(** ** The public boundary *)

(** C7: the header declares six functions and the translation unit defines
    exactly those six, with the declared prototypes.  Their bodies forward,
    one each and in this order, to the six operations the specification
    enumerates (stdout, stderr, flockfile, funlockfile, fwrite, fflush),
    which make up its four kinds of operation: stream handles, exclusive
    access, write and flush.  Nothing that creates or destroys a stream is
    exported.  Every declaration is the one some call goes through, and
    every call, with whatever arguments, resolves through the header to a
    body that is its enumerated operation and nothing else: the one
    primitive on the caller's arguments in order, then a return of its
    answer. *)
Theorem shim_public_boundary :
  List.map proto shim_c = CSwiftLogAndroidSupport_h
  /\ List.map fn_name CSwiftLogAndroidSupport_h
     = ["shim_stdout"; "shim_stderr"; "shim_flockfile"; "shim_funlockfile";
        "shim_fwrite"; "shim_fflush"]%string
  /\ List.map forwarded shim_c = List.map Some enumerated
  /\ NoDup enumerated
  /\ nodup operation_eq_dec (List.map operation_of enumerated)
     = [Op_stream_handle; Op_exclusive_access; Op_write; Op_flush]
  /\ Forall (fun d => exists p, forwarded d = Some p /\ In p enumerated
                                /\ operation_of p <> Op_lifecycle) shim_c
  /\ Forall (fun p => exists R (c : shim_call R), call_prototype c = p)
            CSwiftLogAndroidSupport_h
  /\ (forall R (c : shim_call R),
         In (call_prototype c) CSwiftLogAndroidSupport_h
         /\ In (name_of (primitive (underlying c))) enumerated
         /\ exists t : itree stdioE R,
             call_through_header c = Some t
             /\ forwards (primitive (underlying c)) (convert (underlying c)) t).
Proof.
  split; [reflexivity | split; [reflexivity | split; [reflexivity |
    split; [| split; [| split; [| split]]]]]].
  - unfold enumerated.
    repeat (constructor; [cbn; intuition discriminate |]). constructor.
  - reflexivity.
  - unfold shim_c.
    repeat (constructor;
            [eexists; split; [reflexivity | split;
                              [cbn; tauto | cbn; discriminate]] |]).
    constructor.
  - unfold CSwiftLogAndroidSupport_h.
    repeat constructor.
    + exists void_ptr, Call_stdout. reflexivity.
    + exists void_ptr, Call_stderr. reflexivity.
    + exists unit, (Call_flockfile (VoidPtr 0)). reflexivity.
    + exists unit, (Call_funlockfile (VoidPtr 0)). reflexivity.
    + exists size_t, (Call_fwrite (VoidPtr 0) 0%N 0%N (VoidPtr 0)). reflexivity.
    + exists int, (Call_fflush (VoidPtr 0)). reflexivity.
  - intros R c.
    pose proof (shim_program_forwards c) as Hf.
    split; [destruct c; cbn; tauto |].
    split; [destruct c; cbn; tauto |].
    exists (shim_program c).
    split; [destruct c; reflexivity | exact Hf].
Qed.

(* ===================================================================== *)
(** ** Determinism of the stream getters *)

Lemma run_shim_stdout {W F} (P : platform W F) (w : W) :
  run P shim_stdout w ≈ Ret (w, void_of_FILE (stdout P w)).
Proof.
  rewrite (forwards_run P _ _ _ w shim_stdout_forwards). cbn.
  unfold through, ITree.map. rewrite bind_ret_l. reflexivity.
Qed.

Lemma run_shim_stderr {W F} (P : platform W F) (w : W) :
  run P shim_stderr w ≈ Ret (w, void_of_FILE (stderr P w)).
Proof.
  rewrite (forwards_run P _ _ _ w shim_stderr_forwards). cbn.
  unfold through, ITree.map. rewrite bind_ret_l. reflexivity.
Qed.

Lemma run_twice {W F R} (P : platform W F) (t : itree stdioE R) (w : W) (r : R) :
  run P t w ≈ Ret (w, r) ->
  run P (a <- t ;; b <- t ;; Ret (a, b)) w ≈ Ret (w, (r, r)).
Proof.
  intros H. unfold run in *.
  rewrite interp_state_bind, H, bind_ret_l. cbn.
  rewrite interp_state_bind, H, bind_ret_l. cbn.
  rewrite interp_state_ret. reflexivity.
Qed.

(** C8: the handle [shim_stdout] returns is determined by the runtime's
    [stdout] object alone, and the handle [shim_stderr] returns by the
    [stderr] object alone: in two worlds that agree on the object the
    results are equal, whatever else differs; and two calls in a row from
    one world return the same handle twice and leave the world as it was. *)
Theorem shim_std_streams_deterministic :
  forall W F (P : platform W F) (w1 w2 w1' w2' : W) (h1 h2 : void_ptr),
    (stdout P w1 = stdout P w2 ->
     Leaf (w1', h1) (run P shim_stdout w1) ->
     Leaf (w2', h2) (run P shim_stdout w2) ->
     h1 = h2)
    /\ (stderr P w1 = stderr P w2 ->
        Leaf (w1', h1) (run P shim_stderr w1) ->
        Leaf (w2', h2) (run P shim_stderr w2) ->
        h1 = h2)
    /\ run P (a <- shim_stdout ;; b <- shim_stdout ;; Ret (a, b)) w1
         ≈ Ret (w1, (void_of_FILE (stdout P w1), void_of_FILE (stdout P w1)))
    /\ run P (a <- shim_stderr ;; b <- shim_stderr ;; Ret (a, b)) w1
         ≈ Ret (w1, (void_of_FILE (stderr P w1), void_of_FILE (stderr P w1))).
Proof.
  intros W F P w1 w2 w1' w2' h1 h2.
  split; [| split; [| split]].
  - intros Hobj L1 L2.
    rewrite run_shim_stdout in L1, L2.
    apply Leaf_Ret_inv in L1, L2.
    injection L1 as _ ->. injection L2 as _ ->. rewrite Hobj. reflexivity.
  - intros Hobj L1 L2.
    rewrite run_shim_stderr in L1, L2.
    apply Leaf_Ret_inv in L1, L2.
    injection L1 as _ ->. injection L2 as _ ->. rewrite Hobj. reflexivity.
  - apply run_twice, run_shim_stdout.
  - apply run_twice, run_shim_stderr.
Qed.

Lemma shim_std_streams_deterministic_witness :
  Sample.memory Sample.boot <> Sample.memory Sample.boot'
  /\ VoidPtr 4096 = void_of_FILE (Sample.stdout_obj Sample.boot')
  /\ VoidPtr 8192 = void_of_FILE (Sample.stderr_obj Sample.boot').
Proof.
  split; [discriminate |].
  destruct (shim_std_streams_deterministic
              _ _ Sample.runtime Sample.boot Sample.boot' Sample.boot Sample.boot'
              (VoidPtr 4096) (void_of_FILE (Sample.stdout_obj Sample.boot')))
    as [Hout _].
  destruct (shim_std_streams_deterministic
              _ _ Sample.runtime Sample.boot Sample.boot' Sample.boot Sample.boot'
              (VoidPtr 8192) (void_of_FILE (Sample.stderr_obj Sample.boot')))
    as [_ [Herr _]].
  split.
  - apply Hout; [reflexivity | |];
      apply (result_within_Leaf 1); reflexivity.
  - apply Herr; [reflexivity | |];
      apply (result_within_Leaf 1); reflexivity.
Defined.

(* ===================================================================== *)
(** ** Termination *)

(** C9: each of the six functions is one use of its primitive followed by
    a return: no choice, no silent step, no second event.  On every
    platform a call returns whenever that use of the primitive returns,
    with the primitive's world and its answer, and returns in no other
    way. *)
Theorem shim_total_relative_to_primitive :
  forall R (c : shim_call R),
    forwards (primitive (underlying c)) (convert (underlying c)) (shim_program c)
    /\ (forall W F (P : platform W F) (w w' : W) (x : answer (underlying c)),
           Leaf (w', x) (handle P _ (primitive (underlying c)) w) ->
           Leaf (w', convert (underlying c) x) (run P (shim_program c) w))
    /\ (forall W F (P : platform W F) (w w' : W) (r : R),
           Leaf (w', r) (run P (shim_program c) w) ->
           exists x, Leaf (w', x) (handle P _ (primitive (underlying c)) w)
                     /\ r = convert (underlying c) x).
Proof.
  intros R c.
  pose proof (shim_program_forwards c) as Hf.
  split; [exact Hf | split].
  - intros W F P w w' x Hx.
    apply (forwards_Leaf P _ _ _ w w' _ Hf).
    exists x. split; [exact Hx | reflexivity].
  - intros W F P w w' r Hr.
    apply (forwards_Leaf P _ _ _ w w' _ Hf). exact Hr.
Qed.

Lemma shim_total_relative_to_primitive_witness :
  Leaf (fst (Sample.do_fflush (FilePtr 8192) Sample.boot), 0%Z)
       (run Sample.runtime (shim_program (Call_fflush (VoidPtr 8192))) Sample.boot).
Proof.
  destruct (shim_total_relative_to_primitive _ (Call_fflush (VoidPtr 8192)))
    as [_ [Hreturns _]].
  apply (Hreturns _ _ Sample.runtime Sample.boot).
  apply sample_returns. reflexivity.
Defined.

(* ===================================================================== *)
(** ** The element count *)




(* ===================================================================== *)
(** ** Handles across the interface *)

Lemma FILE_of_void_of_FILE (f : FILE_ptr) : FILE_of_void (void_of_FILE f) = f.
Proof. destruct f; reflexivity. Qed.


Lemma void_of_FILE_inj (f g : FILE_ptr) : void_of_FILE f = void_of_FILE g -> f = g.
Proof.
  intros H. rewrite <- (FILE_of_void_of_FILE f), H. apply FILE_of_void_of_FILE.
Qed.

(** Running a sequence is running its head and then its tail from the
    world the head left. *)
Lemma run_bind {W F X R} (P : platform W F) (t : itree stdioE X)
      (k : X -> itree stdioE R) (w : W) :
  run P (x <- t ;; k x) w
    ≈ (wx <- run P t w ;; run P (k (snd wx)) (fst wx)).
Proof.
  unfold run. rewrite interp_state_bind. reflexivity.
Qed.

(** A getter in front of a caller can be replaced by the object it reads. *)
Lemma run_after_stdout {W F R} (P : platform W F) (k : void_ptr -> itree stdioE R) w :
  run P (h <- shim_stdout ;; k h) w ≈ run P (k (void_of_FILE (stdout P w))) w.
Proof.
  rewrite run_bind, run_shim_stdout, bind_ret_l. reflexivity.
Qed.

Lemma run_after_stderr {W F R} (P : platform W F) (k : void_ptr -> itree stdioE R) w :
  run P (h <- shim_stderr ;; k h) w ≈ run P (k (void_of_FILE (stderr P w))) w.
Proof.
  rewrite run_bind, run_shim_stderr, bind_ret_l. reflexivity.
Qed.

Lemma run_shim_flockfile {W F} (P : platform W F) file w :
  run P (shim_flockfile file) w ≈ flockfile P (FILE_of_void file) w.
Proof.
  exact (forwards_id_run P _ _ w (shim_program_forwards (Call_flockfile file))).
Qed.

Lemma run_shim_funlockfile {W F} (P : platform W F) file w :
  run P (shim_funlockfile file) w ≈ funlockfile P (FILE_of_void file) w.
Proof.
  exact (forwards_id_run P _ _ w (shim_program_forwards (Call_funlockfile file))).
Qed.

Lemma run_shim_fwrite {W F} (P : platform W F) ptr size count file w :
  run P (shim_fwrite ptr size count file) w
    ≈ fwrite P ptr size count (FILE_of_void file) w.
Proof.
  exact (forwards_id_run P _ _ w (shim_fwrite_forwards ptr size count file)).
Qed.

Lemma run_shim_fflush {W F} (P : platform W F) file w :
  run P (shim_fflush file) w ≈ fflush P (FILE_of_void file) w.
Proof.
  exact (forwards_id_run P _ _ w (shim_fflush_forwards file)).
Qed.

(** X1: a handle obtained from [shim_stdout] or [shim_stderr] and handed
    back to any of the four other entry points reaches the primitive as
    the runtime's own stream object: the two conversions cancel. *)
Theorem getter_handle_reaches_primitive :
  forall W F (P : platform W F) (w : W) (ptr : void_ptr) (size count : size_t),
    run P (h <- shim_stdout ;; shim_fwrite ptr size count h) w
      ≈ fwrite P ptr size count (stdout P w) w
    /\ run P (h <- shim_stdout ;; shim_fflush h) w ≈ fflush P (stdout P w) w
    /\ run P (h <- shim_stdout ;; shim_flockfile h) w ≈ flockfile P (stdout P w) w
    /\ run P (h <- shim_stdout ;; shim_funlockfile h) w ≈ funlockfile P (stdout P w) w
    /\ run P (h <- shim_stderr ;; shim_fwrite ptr size count h) w
         ≈ fwrite P ptr size count (stderr P w) w
    /\ run P (h <- shim_stderr ;; shim_fflush h) w ≈ fflush P (stderr P w) w
    /\ run P (h <- shim_stderr ;; shim_flockfile h) w ≈ flockfile P (stderr P w) w
    /\ run P (h <- shim_stderr ;; shim_funlockfile h) w ≈ funlockfile P (stderr P w) w.
Proof.
  intros W F P w ptr size count.
  split; [| split; [| split; [| split; [| split; [| split; [| split]]]]]].
  all: first [rewrite run_after_stdout | rewrite run_after_stderr].
  all: first [rewrite run_shim_fwrite | rewrite run_shim_fflush
             | rewrite run_shim_flockfile | rewrite run_shim_funlockfile].
  all: rewrite FILE_of_void_of_FILE; reflexivity.
Qed.

(* ===================================================================== *)
(** ** Sequences of calls *)

(** X2: a locked write (lock, write, flush, unlock on one handle) runs the
    four primitives in that order on the handle at the same address, each
    from the world its predecessor left, and returns the count and the
    status the primitives returned.  Neither result affects what is called
    next. *)
Theorem locked_write_runs_the_primitives_in_order :
  forall W F (P : platform W F) (w : W)
         (ptr : void_ptr) (size count : size_t) (file : void_ptr),
    run P (shim_flockfile file ;;
           n <- shim_fwrite ptr size count file ;;
           status <- shim_fflush file ;;
           shim_funlockfile file ;;
           Ret (n, status)) w
    ≈ (a <- flockfile P (FILE_of_void file) w ;;
       b <- fwrite P ptr size count (FILE_of_void file) (fst a) ;;
       c <- fflush P (FILE_of_void file) (fst b) ;;
       d <- funlockfile P (FILE_of_void file) (fst c) ;;
       Ret (fst d, (snd b, snd c))).
Proof.
  intros W F P w ptr size count file.
  rewrite run_bind, run_shim_flockfile.
  eapply eutt_clo_bind; [reflexivity | intros a ? <-].
  rewrite run_bind, run_shim_fwrite.
  eapply eutt_clo_bind; [reflexivity | intros b ? <-].
  rewrite run_bind, run_shim_fflush.
  eapply eutt_clo_bind; [reflexivity | intros c ? <-].
  rewrite run_bind, run_shim_funlockfile.
  eapply eutt_clo_bind; [reflexivity | intros d ? <-].
  unfold run. rewrite interp_state_ret. reflexivity.
Qed.

(** X3: what is sequenced after [shim_flockfile] runs from a world that
    [flockfile] returned, and only from such a world; where [flockfile]
    does not return, nothing sequenced after the wrapper returns. *)
Theorem nothing_runs_until_the_lock_returns :
  forall W F (P : platform W F) (file : void_ptr) R (t : itree stdioE R) (w : W),
    (forall w' r,
        Leaf (w', r) (run P (shim_flockfile file ;; t) w)
        <-> exists w1, Leaf (w1, tt) (flockfile P (FILE_of_void file) w)
                       /\ Leaf (w', r) (run P t w1))
    /\ ((forall wu, ~ Leaf wu (flockfile P (FILE_of_void file) w)) ->
        forall wr, ~ Leaf wr (run P (shim_flockfile file ;; t) w)).
Proof.
  intros W F P file R t w.
  assert (Hdec : forall w' r,
             Leaf (w', r) (run P (shim_flockfile file ;; t) w)
             <-> exists w1, Leaf (w1, tt) (flockfile P (FILE_of_void file) w)
                            /\ Leaf (w', r) (run P t w1)).
  { intros w' r. rewrite run_bind, run_shim_flockfile. split.
    - intros H. apply Leaf_bind_inv in H. destruct H as [[w1 []] [H1 H2]].
      exists w1. split; assumption.
    - intros [w1 [H1 H2]]. eapply Leaf_bind; [exact H1 | exact H2]. }
  split; [exact Hdec |].
  intros Hblocked [w' r] Hleaf.
  apply Hdec in Hleaf. destruct Hleaf as [w1 [H1 _]].
  exact (Hblocked _ H1).
Qed.

Lemma sample_lock_contended :
  forall wu, ~ Leaf wu (flockfile Sample.runtime (FILE_of_void (VoidPtr 8192))
                                  Sample.contended).
Proof. intros wu H. cbn in H. exact (spin_empty_Leaf _ _ _ H). Qed.

Lemma nothing_runs_until_the_lock_returns_witness :
  Leaf (fst (Sample.do_fflush (FilePtr 8192) Sample.boot), 0%Z)
       (run Sample.runtime
            (shim_flockfile (VoidPtr 5) ;; shim_fflush (VoidPtr 8192))
            Sample.boot)
  /\ forall wr, ~ Leaf wr (run Sample.runtime
                               (shim_flockfile (VoidPtr 8192) ;;
                                shim_fwrite (VoidPtr 0) 1%N 6%N (VoidPtr 8192))
                               Sample.contended).
Proof.
  split.
  - destruct (nothing_runs_until_the_lock_returns
                _ _ Sample.runtime (VoidPtr 5) _
                (shim_fflush (VoidPtr 8192)) Sample.boot)
      as [Hdec _].
    apply Hdec. exists Sample.boot. split.
    + apply (result_within_Leaf 0). reflexivity.
    + apply (result_within_Leaf 1). reflexivity.
  - destruct (nothing_runs_until_the_lock_returns
                _ _ Sample.runtime (VoidPtr 8192) _
                (shim_fwrite (VoidPtr 0) 1%N 6%N (VoidPtr 8192)) Sample.contended)
      as [_ Hblocked].
    exact (Hblocked sample_lock_contended).
Defined.

(* ===================================================================== *)
(** ** Any caller *)

Lemma shim_eq_direct : forall T (c : shim_call T), shim T c ≅ direct T c.
Proof.
  intros T c. unfold shim, direct.
  rewrite (forwards_eq_itree _ _ _ (shim_program_forwards c)).
  rewrite bind_trigger. reflexivity.
Qed.

(** X4: for every caller, finite or not, linking it with [shim.c] gives
    the program obtained by writing each call as its primitive with the
    pointer conversions, up to strong bisimulation; hence both run alike on
    every platform. *)
Theorem shim_is_transparent_to_callers :
  forall R (client : itree shim_call R),
    link client ≅ interp direct client
    /\ forall W F (P : platform W F) (w : W),
         run P (link client) w ≈ run P (interp direct client) w.
Proof.
  intros R client.
  assert (Heq : link client ≅ interp direct client).
  { unfold link. apply eq_itree_interp; [exact shim_eq_direct | reflexivity]. }
  split; [exact Heq |].
  intros W F P w. unfold run. rewrite Heq. reflexivity.
Qed.

(* ===================================================================== *)
(** ** Invariants of the runtime *)

Lemma shim_call_keeps_invariant {W F} (P : platform W F) (I : W -> Prop) :
  invariant_of P I ->
  forall R (c : shim_call R) w w' r,
    I w -> Leaf (w', r) (run P (shim_program c) w) -> I w'.
Proof.
  intros [Hlock [Hunlock [Hwrite Hflush]]] R c w w' r Hw Hleaf.
  apply (forwards_Leaf P _ _ _ w w' r (shim_program_forwards c)) in Hleaf.
  destruct Hleaf as [x [Hx _]].
  destruct c; cbn in Hx.
  - apply Leaf_Ret_inv in Hx. injection Hx as -> _. exact Hw.
  - apply Leaf_Ret_inv in Hx. injection Hx as -> _. exact Hw.
  - exact (Hlock _ _ _ _ Hw Hx).
  - exact (Hunlock _ _ _ _ Hw Hx).
  - exact (Hwrite _ _ _ _ _ _ _ Hw Hx).
  - exact (Hflush _ _ _ _ Hw Hx).
Qed.

Lemma linked_caller_has_post {W F} (P : platform W F) (I : W -> Prop) :
  invariant_of P I ->
  forall R (client : itree shim_call R) w,
    I w -> has_post (run P (link client) w) (fun wr => I (fst wr)).
Proof.
  intros Hinv R. unfold has_post, run, link.
  ginit. gcofix CIH. intros client w Hw.
  rewrite (itree_eta client). destruct (observe client) as [res | t | X c k].
  - rewrite interp_ret, interp_state_ret. gstep. constructor. exact Hw.
  - rewrite interp_tau, interp_state_tau. gstep. constructor.
    gfinal. left. apply CIH. exact Hw.
  - rewrite interp_vis, interp_state_bind.
    guclo eqit_clo_bind.
    eapply ITree.Eq.Eqit.pbc_intro_h with (RU := fun a b => a = b /\ I (fst a)).
    + apply has_post_post_strong. apply has_post_Leaf_equiv.
      intros [w1 x] Hleaf. cbn.
      exact (shim_call_keeps_invariant P I Hinv _ c w w1 x Hw Hleaf).
    + intros [w1 x] ? [<- Hw1]. cbn in *.
      rewrite interp_state_tau. gstep. constructor.
      gfinal. left. apply CIH. exact Hw1.
Qed.

(** X5: an invariant of the runtime's [flockfile], [funlockfile], [fwrite]
    and [fflush] is an invariant of every caller of the shim: from a world
    where it holds, whatever the caller does through the six entry points
    and however long, it holds in every world the caller can end in.
    Nothing is required of [fopen] or [fclose]. *)
Theorem callers_keep_runtime_invariants :
  forall W F (P : platform W F) (I : W -> Prop),
    invariant_of P I ->
    forall R (client : itree shim_call R) (w w' : W) (r : R),
      I w -> Leaf (w', r) (run P (link client) w) -> I w'.
Proof.
  intros W F P I Hinv R client w w' r Hw Hleaf.
  exact (has_post_Leaf _ _ _ (linked_caller_has_post P I Hinv R client w Hw) Hleaf).
Qed.

Lemma tracer_invariant :
  invariant_of Tracer.runtime (fun log => forallb (fun e => negb (Tracer.lifecycle e)) log = true).
Proof.
  unfold invariant_of, Tracer.runtime, Tracer.record; cbn.
  repeat split; intros; apply Leaf_Ret_inv in H0; injection H0 as -> _;
    rewrite forallb_app, H; reflexivity.
Qed.

Lemma callers_keep_runtime_invariants_witness :
  forallb (fun e => negb (Tracer.lifecycle e))
          [Tracer.Called_flockfile (FilePtr 8192);
           Tracer.Called_fwrite (VoidPtr 0) 1%N 6%N (FilePtr 8192);
           Tracer.Called_fflush (FilePtr 8192);
           Tracer.Called_funlockfile (FilePtr 8192)] = true.
Proof.
  apply (callers_keep_runtime_invariants
           _ _ Tracer.runtime _ tracer_invariant _
           (log_line (VoidPtr 0) 1%N 6%N) [] _ (6%N, 0%Z) eq_refl).
  apply (result_within_Leaf 20). reflexivity.
Defined.

(** X6: no caller, whatever it does through the six entry points, makes
    the runtime open or close a stream: on the recording runtime, started
    with an empty record, every record a linked caller can end with is free
    of [fopen] and [fclose]. *)
Theorem callers_never_open_or_close :
  forall R (client : itree shim_call R) (log : list Tracer.entry) (r : R),
    Leaf (log, r) (run Tracer.runtime (link client) []) ->
    forallb (fun e => negb (Tracer.lifecycle e)) log = true.
Proof.
  intros R client log r Hleaf.
  exact (has_post_Leaf _ _ _
           (linked_caller_has_post Tracer.runtime _ tracer_invariant R client [] eq_refl)
           Hleaf).
Qed.

Lemma callers_never_open_or_close_witness :
  forallb (fun e => negb (Tracer.lifecycle e))
          [Tracer.Called_flockfile (FilePtr 8192);
           Tracer.Called_fwrite (VoidPtr 0) 2%N 3%N (FilePtr 8192);
           Tracer.Called_fflush (FilePtr 8192);
           Tracer.Called_funlockfile (FilePtr 8192)] = true.
Proof.
  apply (callers_never_open_or_close _ (log_line (VoidPtr 0) 2%N 3%N) _ (3%N, 0%Z)).
  apply (result_within_Leaf 20). reflexivity.
Defined.

(* ===================================================================== *)
(** ** Nothing is lost on the way *)


(** X7: the handles [shim_stdout] and [shim_stderr] return from one world
    are equal exactly when the runtime's two stream objects are: the
    conversion to [void *] neither merges nor splits streams. *)
Theorem std_handles_differ_as_the_objects_do :
  forall W F (P : platform W F) (w wo we : W) (ho he : void_ptr),
    Leaf (wo, ho) (run P shim_stdout w) ->
    Leaf (we, he) (run P shim_stderr w) ->
    (ho = he <-> stdout P w = stderr P w).
Proof.
  intros W F P w wo we ho he Lo Le.
  rewrite run_shim_stdout in Lo. rewrite run_shim_stderr in Le.
  apply Leaf_Ret_inv in Lo, Le.
  injection Lo as _ ->. injection Le as _ ->.
  split.
  - apply void_of_FILE_inj.
  - intros ->. reflexivity.
Qed.

Lemma std_handles_differ_as_the_objects_do_witness :
  VoidPtr 4096 = VoidPtr 8192
  <-> stdout Sample.runtime Sample.boot = stderr Sample.runtime Sample.boot.
Proof.
  apply (std_handles_differ_as_the_objects_do
           _ _ Sample.runtime Sample.boot Sample.boot Sample.boot
           (VoidPtr 4096) (VoidPtr 8192)).
  - apply (result_within_Leaf 1). reflexivity.
  - apply (result_within_Leaf 1). reflexivity.
Defined.

